(** * watoga-test: the PostGIS service layer (app/service.py)

    A shallow embedding of the four access functions of [app/service.py]
    over the schema declared in [app/models.py] and created by the
    migration [app/alembic/versions/0001_init.py].

    - The two tables are finite maps keyed by their primary key
      ([features.id], [footprints.feature_id]); an INSERT on a key that is
      already present raises, as the primary-key constraint makes it.
    - The SQLAlchemy session is a pair of table sets: what has been
      committed, and what the open transaction sees.  [db.commit()] copies
      the second onto the first, [db.rollback()] the first onto the second.
    - Python exceptions are explicit: every function runs in a state and
      exception monad over the [World].
    - The spatial engine (PostGIS) and the datetime text format are
      external collaborators: their operations are class fields, and the
      few facts about them that a theorem relies on are separate law
      classes, so that each statement shows what it assumes.
    - Values are taken as well typed for their columns: identifiers are
      parsed UUIDs, and no column-domain check (string length, integer
      range) is modelled.  The store is taken to be available: a
      statement fails only by violating a key.
    - There is one caller and one session.  A caller that lets an
      exception of [create_feature] through is taken to roll the session
      back before using it again. *)

From Stdlib Require Import ZArith NArith String Ascii.
From stdpp Require Import base option list gmap sorting relations strings.

Local Open Scope string_scope.
Local Open Scope Z_scope.

(** ** External collaborators *)

(** The spatial engine: double precision numbers with their ORDER BY
    order, geography points and polygons, and the five functions the
    queries call.  [ST_MakePoint lon lat] stands for
    [ST_SetSRID(ST_MakePoint(:lon, :lat), 4326)::geography]. *)
Class PostGIS := {
  float8 : Type;
  float8_eq_dec :: EqDecision float8;
  float8_zero : float8;
  float8_le : relation float8;
  float8_le_dec :: RelDecision float8_le;
  geography_point : Type;
  geography_polygon : Type;
  ST_MakePoint : float8 → float8 → geography_point;
  ST_Buffer : geography_point → Z → geography_polygon;
  ST_Area : geography_polygon → float8;
  ST_Distance : geography_point → geography_point → float8;
  ST_DWithin : geography_point → geography_point → Z → bool
}.

(** [x] sorts strictly before [y]. *)
Definition float8_lt `{PostGIS} (x y : float8) : Prop := ¬ float8_le y x.

(** What the theorems below use of the engine. *)
Class PostGISLaws (G : PostGIS) : Prop := {
  float8_le_total :: Total (@float8_le G);
  float8_le_trans :: Transitive (@float8_le G);
  ST_Distance_self : ∀ p, ST_Distance p p = float8_zero;
  ST_DWithin_self : ∀ p, ST_DWithin p p 0 = true;
  ST_DWithin_mono : ∀ p q r1 r2,
    r1 ≤ r2 → ST_DWithin p q r1 = true → ST_DWithin p q r2 = true;
  ST_Area_Buffer_pos : ∀ p r,
    0 < r → float8_lt float8_zero (ST_Area (ST_Buffer p r))
}.

(** Timezone-aware datetimes and their ISO 8601 text
    ([datetime.isoformat], [datetime.fromisoformat]). *)
Class Datetime := {
  datetime : Type;
  isoformat : datetime → string;
  fromisoformat : string → option datetime
}.


(** ** Identifiers *)

(** A UUID is its 128-bit value. *)
Abbreviation uuid := N (only parsing).

Definition hex_digit (n : N) : ascii :=
  match n with
  | 0 => "0" | 1 => "1" | 2 => "2" | 3 => "3" | 4 => "4" | 5 => "5"
  | 6 => "6" | 7 => "7" | 8 => "8" | 9 => "9" | 10 => "a" | 11 => "b"
  | 12 => "c" | 13 => "d" | 14 => "e" | _ => "f"
  end%N%char.

(** The [count] hexadecimal digits of [n] that end at bit [4 * low],
    most significant first. *)
Fixpoint hex_field (n : N) (low : N) (count : nat) : string :=
  match count with
  | O => EmptyString
  | S c =>
      hex_field n (low + 1) c
      ++ String (hex_digit (N.land (N.shiftr n (4 * low)) 15)) EmptyString
  end.

(** [str(uuid)]: 8-4-4-4-12 lower-case hexadecimal digits. *)
Definition uuid_str (u : uuid) : string :=
  hex_field u 24 8 ++ "-" ++ hex_field u 20 4 ++ "-" ++ hex_field u 16 4
  ++ "-" ++ hex_field u 12 4 ++ "-" ++ hex_field u 0 12.

(** ** Exceptions and the world *)

(** The one failure the modelled store raises: a duplicate key. *)
Inductive exn :=
  | IntegrityError (constraint : string).

(** [str(e)] *)
Definition exn_str (e : exn) : string :=
  match e with
  | IntegrityError c =>
      "duplicate key value violates unique constraint " ++ c
  end.

Inductive outcome (A : Type) :=
  | Return (a : A)
  | Raise (e : exn).
Arguments Return {A} a.
Arguments Raise {A} e.

Section Service.
Context {G : PostGIS} {D : Datetime}.

(** *** Schema (app/models.py) *)

(** A row of [features]; the [id] column is the key of the table. *)
Record Feature := {
  f_name : string;
  f_status : string;
  f_attempts : Z;
  f_created_at : datetime;
  f_updated_at : option datetime;
  f_geom : geography_point
}.

(** A row of [footprints]; the [feature_id] column is the key. *)
Record Footprint := {
  fp_buffer_m : Z;
  fp_area_m2 : float8;
  fp_created_at : datetime;
  fp_geom : geography_polygon
}.

Record Tables := {
  features : gmap N Feature;
  footprints : gmap N Footprint
}.

(** The foreign key [footprints.feature_id → features.id]. *)
Definition fk_ok (t : Tables) : Prop :=
  ∀ k, is_Some (footprints t !! k) → is_Some (features t !! k).

(** The session [db] with what surrounds it: committed tables, the
    tables as the open transaction sees them, the process's standard
    output, the source of [uuid.uuid4()] with the number of draws so far,
    and the reading of the clock. *)
Record World := {
  store : Tables;
  txn : Tables;
  stdout : list string;
  entropy : nat → N;
  drawn : nat;
  wall_clock : datetime
}.

Definition with_txn (t : Tables) (w : World) : World :=
  {| store := store w; txn := t; stdout := stdout w;
     entropy := entropy w; drawn := drawn w; wall_clock := wall_clock w |}.

(** *** The monad *)

Definition M (A : Type) : Type := World → outcome A * World.

#[export] Instance M_ret : MRet M := λ A (a : A) w, (Return a, w).

#[export] Instance M_bind : MBind M := λ A B (k : A → M B) (m : M A) w,
  match m w with
  | (Return a, w') => k a w'
  | (Raise e, w') => (Raise e, w')
  end.

(** [try: body except Exception as e: handler e] *)
Definition try_except {A} (body : M A) (handler : exn → M A) : M A :=
  λ w,
    match body w with
    | (Return a, w') => (Return a, w')
    | (Raise e, w') => handler e w'
    end.

(** *** Process-level effects *)

(** [now()]: [datetime.now(timezone.utc)] *)
Definition now : M datetime := λ w, (Return (wall_clock w), w).

(** [uuid.uuid4()] *)
Definition uuid4 : M N := λ w,
  (Return (entropy w (drawn w)),
   {| store := store w; txn := txn w; stdout := stdout w;
      entropy := entropy w; drawn := S (drawn w);
      wall_clock := wall_clock w |}).

(** [print(line)] *)
Definition print (line : string) : M () := λ w,
  (Return (),
   {| store := store w; txn := txn w; stdout := stdout w ++ [line];
      entropy := entropy w; drawn := drawn w;
      wall_clock := wall_clock w |}).

(** *** The session *)

(** [db.commit()] *)
Definition commit : M () := λ w,
  (Return (),
   {| store := txn w; txn := txn w; stdout := stdout w;
      entropy := entropy w; drawn := drawn w;
      wall_clock := wall_clock w |}).

(** [db.rollback()] *)
Definition rollback : M () := λ w,
  (Return (),
   {| store := store w; txn := store w; stdout := stdout w;
      entropy := entropy w; drawn := drawn w;
      wall_clock := wall_clock w |}).

(** A statement that only reads the transaction's tables. *)
Definition query {A} (q : Tables → A) : M A := λ w, (Return (q (txn w)), w).

(** A statement that rewrites them, or raises and leaves them as they
    are. *)
Definition statement (s : Tables → exn + Tables) : M () := λ w,
  match s (txn w) with
  | inl e => (Raise e, w)
  | inr t => (Return (), with_txn t w)
  end.

(** *** The SQL statements of app/service.py *)

(** [INSERT INTO features (id, name, status, attempts, created_at,
    updated_at, geom) VALUES (:id, :name, 'queued', 0, :created_at,
    :updated_at, ST_SetSRID(ST_MakePoint(:lon, :lat), 4326)::geography)] *)
Definition insert_feature (id : N) (name : string) (lon lat : float8)
    (created_at updated_at : datetime) (t : Tables) : exn + Tables :=
  match features t !! id with
  | Some _ => inl (IntegrityError "features_pkey")
  | None =>
      inr {| features :=
               <[id := {| f_name := name; f_status := "queued";
                          f_attempts := 0; f_created_at := created_at;
                          f_updated_at := Some updated_at;
                          f_geom := ST_MakePoint lon lat |}]> (features t);
             footprints := footprints t |}
  end.

(** [SELECT id FROM features WHERE id = :feature_id], then [fetchone()] *)
Definition select_feature_id (feature_id : N) (t : Tables) : option N :=
  match features t !! feature_id with
  | Some _ => Some feature_id
  | None => None
  end.

(** [INSERT INTO footprints (feature_id, buffer_m, area_m2, created_at,
    geom) SELECT :feature_id, :buffer_m, ST_Area(ST_Buffer(f.geom,
    :buffer_m)), :created_at, ST_Buffer(f.geom, :buffer_m) FROM features f
    WHERE f.id = :feature_id].  The SELECT yields one row per matching
    feature: none or one. *)
Definition insert_footprint (feature_id : N) (buffer_m : Z)
    (created_at : datetime) (t : Tables) : exn + Tables :=
  match features t !! feature_id with
  | None => inr t
  | Some f =>
      match footprints t !! feature_id with
      | Some _ => inl (IntegrityError "footprints_pkey")
      | None =>
          inr {| features := features t;
                 footprints :=
                   <[feature_id :=
                       {| fp_buffer_m := buffer_m;
                          fp_area_m2 := ST_Area (ST_Buffer (f_geom f) buffer_m);
                          fp_created_at := created_at;
                          fp_geom := ST_Buffer (f_geom f) buffer_m |}]>
                     (footprints t) |}
      end
  end.

(** The SET clause [status = 'done', updated_at = :updated_at,
    attempts = attempts + 1]. *)
Definition set_done (updated_at : datetime) (f : Feature) : Feature :=
  {| f_name := f_name f; f_status := "done";
     f_attempts := f_attempts f + 1; f_created_at := f_created_at f;
     f_updated_at := Some updated_at; f_geom := f_geom f |}.

(** [UPDATE features SET ... WHERE id = :feature_id] *)
Definition update_feature_done (feature_id : N) (updated_at : datetime)
    (t : Tables) : exn + Tables :=
  inr {| features := alter (set_done updated_at) feature_id (features t);
         footprints := footprints t |}.

(** A row of [features f LEFT JOIN footprints fp ON f.id =
    fp.feature_id]: the footprint columns are NULL when no footprint
    matches. *)
Record Joined := {
  j_id : N;
  j_feature : Feature;
  j_footprint : option Footprint
}.

Definition left_join (t : Tables) : list Joined :=
  (λ kf, {| j_id := kf.1; j_feature := kf.2;
            j_footprint := footprints t !! kf.1 |})
  <$> map_to_list (features t).

(** The query of [get_feature], then [fetchone()]. *)
Definition select_feature (feature_id : N) (t : Tables) : option Joined :=
  f ← features t !! feature_id;
  Some {| j_id := feature_id; j_feature := f;
          j_footprint := footprints t !! feature_id |}.

(** The query of [features_near], then [fetchall()]: each joined row with
    its [distance_m], filtered by ST_DWithin, in ORDER BY order. *)
Definition distance_le (a b : Joined * float8) : Prop := float8_le a.2 b.2.

#[export] Instance distance_le_dec : RelDecision distance_le.
Proof. intros a b. unfold distance_le. apply _. Defined.

Definition select_near (lon lat : float8) (radius_m : Z) (t : Tables)
    : list (Joined * float8) :=
  let here := ST_MakePoint lon lat in
  merge_sort distance_le
    ((λ j, (j, ST_Distance (f_geom (j_feature j)) here))
     <$> filter (λ j, ST_DWithin (f_geom (j_feature j)) here radius_m = true)
           (left_join t)).

(** *** Result records *)

(** The dict returned by [get_feature]. *)
Record FeatureDict := {
  fd_id : string;
  fd_name : string;
  fd_status : string;
  fd_attempts : Z;
  fd_created_at : option string;
  fd_updated_at : option string;
  fd_buffer_m : option Z;
  fd_buffer_area_m2 : option float8
}.

(** The dicts returned by [features_near]: the same keys and
    [distance_m]. *)
Record NearDict := {
  nd_feature : FeatureDict;
  nd_distance_m : option float8
}.

(** [x.isoformat() if x else None]; a datetime is always truthy. *)
Definition isoformat_or_none (x : option datetime) : option string :=
  isoformat <$> x.

(** [float(x) if x else None]; a float is truthy unless it is zero. *)
Definition float_or_none (x : option float8) : option float8 :=
  match x with
  | Some d => if decide (d = float8_zero) then None else Some d
  | None => None
  end.

Definition feature_dict (j : Joined) : FeatureDict :=
  {| fd_id := uuid_str (j_id j);
     fd_name := f_name (j_feature j);
     fd_status := f_status (j_feature j);
     fd_attempts := f_attempts (j_feature j);
     fd_created_at := isoformat_or_none (Some (f_created_at (j_feature j)));
     fd_updated_at := isoformat_or_none (f_updated_at (j_feature j));
     fd_buffer_m := fp_buffer_m <$> j_footprint j;
     fd_buffer_area_m2 := fp_area_m2 <$> j_footprint j |}.

(** The dict appended for one row of [features_near]. *)
Definition near_dict (result : Joined * float8) : NearDict :=
  {| nd_feature := feature_dict result.1;
     nd_distance_m := float_or_none (Some result.2) |}.

(** *** The four functions *)

Definition create_feature (name : string) (lat lon : float8) : M N :=
  feature_id ← uuid4;
  current_time ← now;
  statement (insert_feature feature_id name lon lat current_time current_time);;
  commit;;
  mret feature_id.

(** The [try] block of [process_feature]. *)
Definition process_feature_body (feature_id : N) (buffer_m : Z) : M bool :=
  result ← query (select_feature_id feature_id);
  match result with
  | None => mret false
  | Some _ =>
      current_time ← now;
      statement (insert_footprint feature_id buffer_m current_time);;
      statement (update_feature_done feature_id current_time);;
      commit;;
      mret true
  end.

(** [f"Error processing feature {feature_id}: {e}"] *)
Definition error_line (feature_id : N) (e : exn) : string :=
  "Error processing feature " ++ uuid_str feature_id ++ ": " ++ exn_str e.

Definition process_feature (feature_id : N) (buffer_m : Z) : M bool :=
  try_except (process_feature_body feature_id buffer_m)
    (λ e,
       rollback;;
       print (error_line feature_id e);;
       mret false).

Definition get_feature (feature_id : N) : M (option FeatureDict) :=
  result ← query (select_feature feature_id);
  match result with
  | None => mret None
  | Some j => mret (Some (feature_dict j))
  end.

Definition features_near (lat lon : float8) (radius_m : Z)
    : M (list NearDict) :=
  results ← query (select_near lon lat radius_m);
  mret (near_dict <$> results).

(** *** Reference states

    The states the theorems compare the functions' results with. *)

(** The tables after [create_feature] has inserted its row. *)
Definition created (feature_id : N) (name : string) (lat lon : float8)
    (at_ : datetime) (t : Tables) : Tables :=
  {| features :=
       <[feature_id := {| f_name := name; f_status := "queued";
                          f_attempts := 0; f_created_at := at_;
                          f_updated_at := Some at_;
                          f_geom := ST_MakePoint lon lat |}]> (features t);
     footprints := footprints t |}.

(** The footprint row that [process_feature] inserts for feature [f]. *)
Definition buffered (f : Feature) (buffer_m : Z) (created_at : datetime)
    : Footprint :=
  {| fp_buffer_m := buffer_m;
     fp_area_m2 := ST_Area (ST_Buffer (f_geom f) buffer_m);
     fp_created_at := created_at;
     fp_geom := ST_Buffer (f_geom f) buffer_m |}.

(** The tables after both statements of the transaction. *)
Definition processed (feature_id : N) (f : Feature) (buffer_m : Z)
    (at_ : datetime) (t : Tables) : Tables :=
  {| features := <[feature_id := set_done at_ f]> (features t);
     footprints := <[feature_id := buffered f buffer_m at_]> (footprints t) |}.

(** No write is pending: the session sees what is committed. *)
Definition clean (w : World) : Prop := txn w = store w.

(** What the handler leaves behind. *)
Definition rolled_back (line : string) (w : World) : World :=
  {| store := store w; txn := store w; stdout := stdout w ++ [line];
     entropy := entropy w; drawn := drawn w; wall_clock := wall_clock w |}.

(** *** Clients

    What a caller can do between two states: call one of the four
    functions, or let time pass. *)

Inductive call :=
  | CreateFeature (name : string) (lat lon : float8)
  | ProcessFeature (feature_id : N) (buffer_m : Z)
  | GetFeature (feature_id : N)
  | FeaturesNear (lat lon : float8) (radius_m : Z)
  | ClockTick (t : datetime).

Definition after_call (c : call) (w : World) : World :=
  match c with
  | CreateFeature name lat lon => (create_feature name lat lon w).2
  | ProcessFeature feature_id buffer_m =>
      (process_feature feature_id buffer_m w).2
  | GetFeature feature_id => (get_feature feature_id w).2
  | FeaturesNear lat lon radius_m => (features_near lat lon radius_m w).2
  | ClockTick t =>
      {| store := store w; txn := txn w; stdout := stdout w;
         entropy := entropy w; drawn := drawn w; wall_clock := t |}
  end.

Definition step (w w' : World) : Prop := ∃ c, w' = after_call c w.

(** The database as the migration leaves it. *)
Definition migrated (w : World) : Prop :=
  features (store w) = ∅ ∧ footprints (store w) = ∅ ∧ clean w.

Definition reachable (w : World) : Prop := ∃ w0, migrated w0 ∧ rtc step w0 w.

(** Every footprint belongs to a feature, is the buffer of that
    feature's point at its own radius, and has the area of its polygon. *)
Definition footprint_ok (t : Tables) : Prop :=
  ∀ k fp, footprints t !! k = Some fp →
    ∃ f, features t !! k = Some f
         ∧ fp_geom fp = ST_Buffer (f_geom f) (fp_buffer_m fp)
         ∧ fp_area_m2 fp = ST_Area (fp_geom fp).

End Service.

(** ** The life of a feature *)

Section Lifecycle.
Context {G : PostGIS} {D : Datetime}.

(** As the four functions leave it, a feature is either waiting (status
    ['queued'], no attempt, no footprint) or processed (status ['done'],
    one attempt, its footprint). *)
Definition lifecycle_ok (t : Tables) : Prop :=
  ∀ k f, features t !! k = Some f →
    (f_status f = "queued" ∧ f_attempts f = 0 ∧ footprints t !! k = None)
    ∨ (f_status f = "done" ∧ f_attempts f = 1
       ∧ is_Some (footprints t !! k)).

End Lifecycle.

(** ** A small instance of the collaborators

    A flat integer grid: a point is its (lon, lat) pair, distance is the
    taxicab distance, and the buffer of a point is the taxicab disc
    (centre and radius).  Its area is [2 r²] for a positive radius; at
    radius zero or below the disc is empty and its area is 0, as for
    PostGIS, whose buffer of a point at radius 0 is POLYGON EMPTY.  A
    datetime is kept as its ISO text. *)
Module Flat.

Definition distance (p q : Z * Z) : Z := Z.abs (p.1 - q.1) + Z.abs (p.2 - q.2).

Definition area (g : Z * Z * Z) : Z :=
  if decide (0 < g.2) then 2 * g.2 * g.2 else 0.

Definition postgis : PostGIS :=
  {| float8 := Z;
     float8_zero := 0;
     float8_le := Z.le;
     geography_point := Z * Z;
     geography_polygon := Z * Z * Z;
     ST_MakePoint lon lat := (lon, lat);
     ST_Buffer p r := (p, r);
     ST_Area := area;
     ST_Distance := distance;
     ST_DWithin p q r := bool_decide (distance p q ≤ r) |}.

Definition iso : Datetime :=
  {| datetime := string;
     isoformat t := t;
     fromisoformat s := Some s |}.

Definition noon : @datetime iso := "2025-09-04T12:00:00+00:00".

Definition no_tables : @Tables postgis iso :=
  {| features := ∅; footprints := ∅ |}.

(** An empty database, a clock, and identifiers 1, 2, 3, ... *)
Definition genesis : @World postgis iso :=
  {| store := no_tables; txn := no_tables; stdout := [];
     entropy := λ n, N.of_nat (S n); drawn := 0%nat;
     wall_clock := noon |}.

(** The world after [f], whatever [f] returned. *)
Definition after {A} (f : @M postgis iso A) (w : @World postgis iso)
    : @World postgis iso := (f w).2.

(** One feature, "Pier A", at (3, 4), with identifier 1. *)
Definition one_feature : @World postgis iso :=
  after (create_feature (G := postgis) "Pier A" 4 3) genesis.

(** A second one, "Pier B", two steps east, with identifier 2. *)
Definition two_features : @World postgis iso :=
  after (create_feature (G := postgis) "Pier B" 4 5) one_feature.

(** "Pier A" in place, and a source of identifiers that draws 1 again. *)
Definition repeating : @World postgis iso :=
  {| store := store one_feature; txn := txn one_feature; stdout := [];
     entropy := λ _, 1%N; drawn := 1%nat; wall_clock := noon |}.

(** The same after [process_feature(1, 500)]. *)
Definition one_done : @World postgis iso :=
  after (process_feature 1 500) one_feature.

(** [one_done] with a write of the caller's still pending: "Pier X",
    inserted under identifier 9 and not committed. *)
Definition pending : @World postgis iso :=
  after (statement (insert_feature (G := postgis) 9 "Pier X" 0 0 noon noon))
        one_done.

(** The rows and dicts of "Pier A" along the way. *)
Definition pier_a_done : @Feature postgis iso :=
  {| f_name := "Pier A"; f_status := "done"; f_attempts := 1;
     f_created_at := noon;
     f_updated_at := Some noon;
     f_geom := ((3, 4) : @geography_point postgis) |}.

Definition pier_a_queued_row : @Feature postgis iso :=
  {| f_name := "Pier A"; f_status := "queued"; f_attempts := 0;
     f_created_at := noon;
     f_updated_at := Some noon;
     f_geom := ((3, 4) : @geography_point postgis) |}.

Definition pier_a_footprint : @Footprint postgis iso :=
  {| fp_buffer_m := 500; fp_area_m2 := (500000 : @float8 postgis);
     fp_created_at := noon;
     fp_geom := ((3, 4), 500) : @geography_polygon postgis |}.

Definition pier_a_queued : @FeatureDict postgis :=
  {| fd_id := "00000000-0000-0000-0000-000000000001";
     fd_name := "Pier A"; fd_status := "queued"; fd_attempts := 0;
     fd_created_at := Some "2025-09-04T12:00:00+00:00";
     fd_updated_at := Some "2025-09-04T12:00:00+00:00";
     fd_buffer_m := None; fd_buffer_area_m2 := None |}.

Definition pier_b_queued : @FeatureDict postgis :=
  {| fd_id := "00000000-0000-0000-0000-000000000002";
     fd_name := "Pier B"; fd_status := "queued"; fd_attempts := 0;
     fd_created_at := Some "2025-09-04T12:00:00+00:00";
     fd_updated_at := Some "2025-09-04T12:00:00+00:00";
     fd_buffer_m := None; fd_buffer_area_m2 := None |}.


(** What [features_near] returns for the two piers seen from (3, 4). *)
Definition pier_a_here : @NearDict postgis :=
  {| nd_feature := pier_a_queued; nd_distance_m := None |}.

Definition pier_b_east : @NearDict postgis :=
  {| nd_feature := pier_b_queued; nd_distance_m := Some (2 : @float8 postgis) |}.

End Flat.

(** ** The migration (app/alembic/versions/0001_init.py)

    The migration works on the catalog of the database, not on its rows:
    which extensions are enabled, which tables exist with which columns,
    and which indexes.  Tables and indexes share one name space
    (relations).  A DDL statement either changes the catalog or raises.
    Rows are no part of the catalog: the tables that the migration
    alters are the ones it has just created, and they are empty. *)
Module Alembic.

Inductive sqltype :=
  | UUID
  | String_ (length : nat)
  | Integer
  | Float
  | DateTime (timezone : bool)
  | Geography (geometry_type : string) (srid : Z).

(** A column as the database holds it.  [c_foreign_key] names the
    referenced table and column (ON DELETE CASCADE).  The [default=] of
    [sa.Column] is applied by SQLAlchemy on insert and is no part of the
    DDL: only [DEFAULT ...] in a statement sets [c_server_default]. *)
Record Column := {
  c_name : string;
  c_type : sqltype;
  c_nullable : bool;
  c_primary_key : bool;
  c_foreign_key : option (string * string);
  c_server_default : option string
}.

Record Index := {
  i_table : string;
  i_using : string;
  i_columns : list string
}.

Record Catalog := {
  extensions : gset string;
  tables : gmap string (list Column);
  indexes : gmap string Index
}.

Inductive ddl_error :=
  | DuplicateTable (relation : string)
  | UndefinedTable (relation : string)
  | DuplicateColumn (table column : string)
  | UndefinedColumn (table column : string)
  | UndefinedObject (type_name : string)
  | DependentObjectsStillExist (table : string).

Definition DDL : Type := Catalog → ddl_error + Catalog.

(** One statement after the other; the first error ends the run. *)
Definition and_then (first second : DDL) : DDL := λ c,
  match first c with
  | inl e => inl e
  | inr c' => second c'
  end.

Definition relation_exists (name : string) (c : Catalog) : bool :=
  bool_decide (is_Some (tables c !! name) ∨ is_Some (indexes c !! name)).

(** The geography type comes with the postgis extension. *)
Definition type_exists (ty : sqltype) (c : Catalog) : bool :=
  match ty with
  | Geography _ _ => bool_decide ("postgis" ∈ extensions c)
  | _ => true
  end.

Definition has_column (name : string) (cols : list Column) : bool :=
  existsb (λ col, String.eqb (c_name col) name) cols.

Definition references (table : string) (col : Column) : bool :=
  match c_foreign_key col with
  | Some (target, _) => String.eqb target table
  | None => false
  end.

(** [CREATE EXTENSION IF NOT EXISTS name] *)
Definition create_extension_if_not_exists (name : string) : DDL := λ c,
  inr {| extensions := {[name]} ∪ extensions c;
         tables := tables c; indexes := indexes c |}.

(** The tables that the foreign keys of [cols] point to. *)
Definition foreign_tables (cols : list Column) : list string :=
  omap (λ col, fst <$> c_foreign_key col) cols.

(** [op.create_table(name, *cols)]: the name and the name of the
    primary-key index must be free, every column type must exist, and
    every foreign key must point to a table that exists or to the new
    table itself; the primary key gets its index [name_pkey]. *)
Definition create_table (name : string) (cols : list Column) : DDL := λ c,
  if relation_exists name c then inl (DuplicateTable name)
  else if relation_exists (name +:+ "_pkey") c
  then inl (DuplicateTable (name +:+ "_pkey"))
  else if negb (forallb (λ col, type_exists (c_type col) c) cols)
  then inl (UndefinedObject "geography")
  else
    match List.find (λ target,
                       negb (bool_decide (is_Some (tables c !! target)))
                       && negb (String.eqb target name))
                    (foreign_tables cols) with
    | Some target => inl (UndefinedTable target)
    | None =>
        inr {| extensions := extensions c;
               tables := <[name := cols]> (tables c);
               indexes :=
                 match c_name <$> List.filter c_primary_key cols with
                 | [] => indexes c
                 | pk =>
                     <[name +:+ "_pkey" :=
                         {| i_table := name; i_using := "btree";
                            i_columns := pk |}]> (indexes c)
                 end |}
    end.

(** [ALTER TABLE table ADD COLUMN col] *)
Definition add_column (table : string) (col : Column) : DDL := λ c,
  match tables c !! table with
  | None => inl (UndefinedTable table)
  | Some cols =>
      if has_column (c_name col) cols
      then inl (DuplicateColumn table (c_name col))
      else if type_exists (c_type col) c
      then inr {| extensions := extensions c;
                  tables := <[table := (cols ++ [col])%list]> (tables c);
                  indexes := indexes c |}
      else inl (UndefinedObject "geography")
  end.

Definition without_default (col : Column) : Column :=
  {| c_name := c_name col; c_type := c_type col;
     c_nullable := c_nullable col; c_primary_key := c_primary_key col;
     c_foreign_key := c_foreign_key col; c_server_default := None |}.

(** [ALTER TABLE table ALTER COLUMN column DROP DEFAULT] *)
Definition drop_default (table column : string) : DDL := λ c,
  match tables c !! table with
  | None => inl (UndefinedTable table)
  | Some cols =>
      if has_column column cols
      then inr {| extensions := extensions c;
                  tables :=
                    <[table :=
                        (λ col, if String.eqb (c_name col) column
                                then without_default col else col) <$> cols]>
                      (tables c);
                  indexes := indexes c |}
      else inl (UndefinedColumn table column)
  end.

(** [CREATE INDEX name ON table USING method (column)] *)
Definition create_index (name table method column : string) : DDL := λ c,
  if relation_exists name c then inl (DuplicateTable name)
  else match tables c !! table with
       | None => inl (UndefinedTable table)
       | Some cols =>
           if has_column column cols
           then inr {| extensions := extensions c;
                       tables := tables c;
                       indexes :=
                         <[name := {| i_table := table; i_using := method;
                                      i_columns := [column] |}]> (indexes c) |}
           else inl (UndefinedColumn table column)
       end.

(** No other table has a foreign key to [table]. *)
Definition unreferenced (table : string) (c : Catalog) : Prop :=
  map_Forall (λ other cols,
                other = table ∨ forallb (λ col, negb (references table col)) cols
                                = true)
             (tables c).

(** [op.drop_table(name)]: [DROP TABLE name], without CASCADE; the
    indexes of the table go with it. *)
Definition drop_table (name : string) : DDL := λ c,
  match tables c !! name with
  | None => inl (UndefinedTable name)
  | Some _ =>
      if decide (unreferenced name c)
      then inr {| extensions := extensions c;
                  tables := delete name (tables c);
                  indexes := filter (λ ni, i_table ni.2 ≠ name) (indexes c) |}
      else inl (DependentObjectsStillExist name)
  end.

(** The columns that [upgrade] passes to [op.create_table]; a primary
    key column is NOT NULL. *)
Definition plain (name : string) (ty : sqltype) (nullable : bool) : Column :=
  {| c_name := name; c_type := ty; c_nullable := nullable;
     c_primary_key := false; c_foreign_key := None;
     c_server_default := None |}.

Definition features_columns : list Column :=
  [ {| c_name := "id"; c_type := UUID; c_nullable := false;
       c_primary_key := true; c_foreign_key := None;
       c_server_default := None |};
    plain "name" (String_ 200) false;
    plain "status" (String_ 32) false;
    plain "attempts" Integer false;
    plain "created_at" (DateTime true) false;
    plain "updated_at" (DateTime true) true ].

Definition footprints_columns : list Column :=
  [ {| c_name := "feature_id"; c_type := UUID; c_nullable := false;
       c_primary_key := true; c_foreign_key := Some ("features", "id");
       c_server_default := None |};
    plain "buffer_m" Integer false;
    plain "area_m2" Float false;
    plain "created_at" (DateTime true) false ].

(** [geom geography(kind, 4326) NOT NULL DEFAULT 'kind EMPTY'::geography] *)
Definition geom_column (kind : string) : Column :=
  {| c_name := "geom"; c_type := Geography kind 4326; c_nullable := false;
     c_primary_key := false; c_foreign_key := None;
     c_server_default := Some (kind +:+ " EMPTY") |}.

Definition upgrade : DDL :=
  and_then (create_extension_if_not_exists "postgis")
  (and_then (create_table "features" features_columns)
  (and_then (add_column "features" (geom_column "POINT"))
  (and_then (drop_default "features" "geom")
  (and_then (create_index "idx_features_geom" "features" "GIST" "geom")
  (and_then (create_table "footprints" footprints_columns)
  (and_then (add_column "footprints" (geom_column "POLYGON"))
  (and_then (drop_default "footprints" "geom")
            (create_index "idx_footprints_geom" "footprints" "GIST" "geom")))))))).

Definition downgrade : DDL :=
  and_then (drop_table "footprints") (drop_table "features").

(** *** The schema of app/models.py

    What [Feature] and [Footprint] declare, column by column. *)

Definition Feature_columns : list Column :=
  [ {| c_name := "id"; c_type := UUID; c_nullable := false;
       c_primary_key := true; c_foreign_key := None;
       c_server_default := None |};
    plain "name" (String_ 200) false;
    plain "status" (String_ 32) false;
    plain "attempts" Integer false;
    plain "created_at" (DateTime true) false;
    plain "updated_at" (DateTime true) true;
    plain "geom" (Geography "POINT" 4326) false ].

Definition Footprint_columns : list Column :=
  [ {| c_name := "feature_id"; c_type := UUID; c_nullable := false;
       c_primary_key := true; c_foreign_key := Some ("features", "id");
       c_server_default := None |};
    plain "buffer_m" Integer false;
    plain "area_m2" Float false;
    plain "created_at" (DateTime true) false;
    plain "geom" (Geography "POLYGON" 4326) false ].

(** *** Reference catalogs *)

(** The six relation names that [upgrade] creates. *)
Definition upgrade_names : list string :=
  [ "features"; "features_pkey"; "idx_features_geom";
    "footprints"; "footprints_pkey"; "idx_footprints_geom" ].

Definition names_free (c : Catalog) : Prop :=
  Forall (λ name, tables c !! name = None ∧ indexes c !! name = None)
         upgrade_names.

(** The catalog after [upgrade]. *)
Definition upgraded (c : Catalog) : Catalog :=
  {| extensions := {["postgis"]} ∪ extensions c;
     tables :=
       <["footprints" := Footprint_columns]>
         (<["features" := Feature_columns]> (tables c));
     indexes :=
       <["idx_footprints_geom" :=
           {| i_table := "footprints"; i_using := "GIST";
              i_columns := ["geom"] |}]>
       (<["footprints_pkey" :=
           {| i_table := "footprints"; i_using := "btree";
              i_columns := ["feature_id"] |}]>
       (<["idx_features_geom" :=
           {| i_table := "features"; i_using := "GIST";
              i_columns := ["geom"] |}]>
       (<["features_pkey" :=
           {| i_table := "features"; i_using := "btree";
              i_columns := ["id"] |}]> (indexes c)))) |}.


(** A database with nothing in it, and one that already has a table
    [users] with its index. *)
Definition nothing : Catalog :=
  {| extensions := ∅; tables := ∅; indexes := ∅ |}.

Definition with_users : Catalog :=
  {| extensions := {["plpgsql"]};
     tables := {["users" := [plain "login" (String_ 64) false]]};
     indexes := {["idx_users_login" :=
                    {| i_table := "users"; i_using := "btree";
                       i_columns := ["login"] |}]} |}.

End Alembic.

(** ** Theorems *)

(** Unfolds one layer of the monad and of the session primitives. *)
Ltac run :=
  unfold mbind, mret, M_bind, M_ret, try_except, query, statement, now,
    commit, rollback, print, uuid4, with_txn; simpl.

Section Process.
Context {G : PostGIS} {D : Datetime}.
Implicit Types (w : World) (t : Tables) (f : Feature) (fp : Footprint).

Lemma alter_set_done feature_id f at_ (m : gmap N Feature) :
  m !! feature_id = Some f →
  alter (set_done at_) feature_id m = <[feature_id := set_done at_ f]> m.
Proof.
  intros Hf. apply map_eq. intros k.
  destruct (decide (feature_id = k)) as [->|Hne].
  - by rewrite lookup_alter_eq, lookup_insert_eq, Hf.
  - by rewrite lookup_alter_ne, lookup_insert_ne.
Qed.

(** The three ways through the [try] block. *)
Lemma body_unknown w feature_id buffer_m :
  features (txn w) !! feature_id = None →
  process_feature_body feature_id buffer_m w = (Return false, w).
Proof.
  intros Hf. unfold process_feature_body, select_feature_id. run.
  by rewrite Hf.
Qed.

Lemma body_conflict w feature_id buffer_m f fp :
  features (txn w) !! feature_id = Some f →
  footprints (txn w) !! feature_id = Some fp →
  process_feature_body feature_id buffer_m w
  = (Raise (IntegrityError "footprints_pkey"), w).
Proof.
  intros Hf Hfp. unfold process_feature_body, select_feature_id. run.
  rewrite Hf. simpl. unfold insert_footprint. by rewrite Hf, Hfp.
Qed.

Lemma body_fresh w feature_id buffer_m f :
  features (txn w) !! feature_id = Some f →
  footprints (txn w) !! feature_id = None →
  process_feature_body feature_id buffer_m w
  = (Return true,
     let t := processed feature_id f buffer_m (wall_clock w) (txn w) in
     {| store := t; txn := t; stdout := stdout w; entropy := entropy w;
        drawn := drawn w; wall_clock := wall_clock w |}).
Proof.
  intros Hf Hfp. unfold process_feature_body, select_feature_id. run.
  rewrite Hf. simpl. unfold insert_footprint. rewrite Hf, Hfp. simpl.
  unfold processed, buffered. by rewrite (alter_set_done _ f).
Qed.


Lemma body_returns_true w feature_id buffer_m w' :
  process_feature_body feature_id buffer_m w = (Return true, w') →
  ∃ f, features (txn w) !! feature_id = Some f
       ∧ footprints (txn w) !! feature_id = None.
Proof.
  destruct (features (txn w) !! feature_id) as [f|] eqn:Hf.
  - destruct (footprints (txn w) !! feature_id) as [fp|] eqn:Hfp.
    + by rewrite (body_conflict _ _ _ f fp).
    + eauto.
  - by rewrite body_unknown.
Qed.

Lemma process_feature_handler w feature_id buffer_m e w1 :
  process_feature_body feature_id buffer_m w = (Raise e, w1) →
  process_feature feature_id buffer_m w
  = (Return false, rolled_back (error_line feature_id e) w1).
Proof. intros Hb. unfold process_feature. run. by rewrite Hb. Qed.

Lemma process_feature_passes w feature_id buffer_m b w1 :
  process_feature_body feature_id buffer_m w = (Return b, w1) →
  process_feature feature_id buffer_m w = (Return b, w1).
Proof. intros Hb. unfold process_feature. run. by rewrite Hb. Qed.

Lemma get_feature_eq w feature_id :
  get_feature feature_id w
  = (Return (feature_dict <$> select_feature feature_id (txn w)), w).
Proof.
  unfold get_feature. run. by destruct (select_feature feature_id (txn w)).
Qed.



(** [process_feature] always returns a boolean. *)
Lemma process_feature_total w feature_id buffer_m :
  ∃ b w', process_feature feature_id buffer_m w = (Return b, w').
Proof.
  destruct (process_feature_body feature_id buffer_m w) as [[b|e] w1] eqn:Hb.
  - erewrite process_feature_passes by done. eauto.
  - erewrite process_feature_handler by done. eauto.
Qed.


(** C3: on an identifier that no feature has, [process_feature] returns
    [False] and changes nothing at all: no table, committed or pending,
    and no output. *)
Theorem process_feature_unknown w feature_id buffer_m :
  features (txn w) !! feature_id = None →
  process_feature feature_id buffer_m w = (Return false, w).
Proof.
  intros Hf. apply process_feature_passes. by apply body_unknown.
Qed.

(** C9: on a feature that already has its footprint, the footprint
    INSERT of [process_feature] raises on the primary key, and
    [process_feature] returns [False] after rolling back: the committed
    tables are unchanged, and with nothing pending the session still sees
    the same feature row and the same footprint row. *)
Theorem process_feature_again w feature_id buffer_m f fp :
  features (txn w) !! feature_id = Some f →
  footprints (txn w) !! feature_id = Some fp →
  statement (insert_footprint feature_id buffer_m (wall_clock w)) w
  = (Raise (IntegrityError "footprints_pkey"), w)
  ∧ ∃ w',
      process_feature feature_id buffer_m w = (Return false, w')
      ∧ store w' = store w
      ∧ txn w' = store w
      ∧ (clean w →
         features (txn w') !! feature_id = Some f
         ∧ footprints (txn w') !! feature_id = Some fp).
Proof.
  intros Hf Hfp. split.
  - run. unfold insert_footprint. by rewrite Hf, Hfp.
  - eexists. split.
    + apply process_feature_handler. by eapply body_conflict.
    + simpl. split; [done|]. split; [done|].
      unfold clean. intros <-. done.
Qed.

End Process.

Section Fetch.
Context {G : PostGIS} {D : Datetime}.
Implicit Types (w : World) (t : Tables) (f : Feature) (fp : Footprint).


Lemma create_feature_fresh w name lat lon :
  features (txn w) !! entropy w (drawn w) = None →
  create_feature name lat lon w
  = (Return (entropy w (drawn w)),
     let t := created (entropy w (drawn w)) name lat lon (wall_clock w) (txn w)
     in {| store := t; txn := t; stdout := stdout w; entropy := entropy w;
           drawn := S (drawn w); wall_clock := wall_clock w |}).
Proof.
  intros Hf. unfold create_feature. run. unfold insert_feature. simpl.
  by rewrite Hf.
Qed.

(** Should [uuid4] repeat an identifier, the INSERT raises and
    [create_feature] lets the exception through. *)
Lemma create_feature_collision w name lat lon f :
  features (txn w) !! entropy w (drawn w) = Some f →
  (create_feature name lat lon w).1
  = Raise (IntegrityError "features_pkey")
  ∧ store (create_feature name lat lon w).2 = store w
  ∧ txn (create_feature name lat lon w).2 = txn w.
Proof.
  intros Hf. unfold create_feature. run. unfold insert_feature. simpl.
  by rewrite Hf.
Qed.


End Fetch.

Section Near.
Context {G : PostGIS} {D : Datetime}.
Implicit Types (w : World) (t : Tables) (f : Feature) (j : Joined).

Lemma features_near_eq w lat lon radius_m :
  features_near lat lon radius_m w
  = (Return (near_dict <$> select_near lon lat radius_m (txn w)), w).
Proof. done. Qed.



(** The rows of the query, as a set: the joined rows that pass
    ST_DWithin, each with its ST_Distance. *)
Lemma elem_of_select_near t lon lat radius_m (row : Joined * float8) :
  row ∈ select_near lon lat radius_m t
  ↔ row.1 ∈ left_join t
    ∧ ST_DWithin (f_geom (j_feature row.1)) (ST_MakePoint lon lat) radius_m
      = true
    ∧ row.2 = ST_Distance (f_geom (j_feature row.1)) (ST_MakePoint lon lat).
Proof.
  unfold select_near. rewrite merge_sort_Permutation, list_elem_of_fmap.
  split.
  - intros (j & -> & [Hin Hj]%list_elem_of_filter). done.
  - intros (Hj & Hin & Hd). exists row.1. split.
    + destruct row; simpl in *. by rewrite Hd.
    + by apply list_elem_of_filter.
Qed.






(** C7: on the same database, whatever [features_near] returns for a
    radius it also returns, the same dict, for any larger radius. *)
Theorem features_near_monotone `{!PostGISLaws G} w lat lon r1 r2 res1 res2 :
  r1 ≤ r2 →
  (features_near lat lon r1 w).1 = Return res1 →
  (features_near lat lon r2 w).1 = Return res2 →
  ∀ d, d ∈ res1 → d ∈ res2.
Proof.
  intros Hr [= <-] [= <-] d.
  intros (row & -> & (Hj & Hin & Hd)%elem_of_select_near)%list_elem_of_fmap.
  apply list_elem_of_fmap_2, elem_of_select_near.
  split; [done|]. split; [|done]. by eapply ST_DWithin_mono.
Qed.

End Near.

Section Invariant.
Context {G : PostGIS} {D : Datetime}.
Implicit Types (w : World) (t : Tables) (f : Feature) (fp : Footprint).

Lemma footprint_ok_fk t : footprint_ok t → fk_ok t.
Proof. intros Hok k [fp Hfp]. destruct (Hok k fp Hfp) as (f & -> & _). eauto. Qed.

Lemma footprint_ok_created t feature_id name lat lon at_ :
  features t !! feature_id = None →
  footprint_ok t → footprint_ok (created feature_id name lat lon at_ t).
Proof.
  intros Hnew Hok k fp Hfp. simpl in *.
  destruct (Hok k fp Hfp) as (f & Hf & Hgeom & Harea).
  exists f. split; [|done].
  rewrite lookup_insert_ne; [done|]. intros ->. congruence.
Qed.

Lemma footprint_ok_processed t feature_id f buffer_m at_ :
  features t !! feature_id = Some f →
  footprint_ok t → footprint_ok (processed feature_id f buffer_m at_ t).
Proof.
  intros Hf Hok k fp. simpl.
  destruct (decide (feature_id = k)) as [<-|Hne].
  - rewrite !lookup_insert_eq. intros [= <-]. by exists (set_done at_ f).
  - rewrite !lookup_insert_ne by done. apply Hok.
Qed.

(** The state after [process_feature], by cases on what the session
    sees for the identifier. *)
Lemma process_feature_after w feature_id buffer_m :
  let w' := (process_feature feature_id buffer_m w).2 in
  match features (txn w) !! feature_id, footprints (txn w) !! feature_id with
  | None, _ => w' = w
  | Some f, Some _ => store w' = store w ∧ txn w' = store w
  | Some f, None =>
      store w' = processed feature_id f buffer_m (wall_clock w) (txn w)
      ∧ txn w' = store w'
  end.
Proof.
  destruct (features (txn w) !! feature_id) as [f|] eqn:Hf.
  - destruct (footprints (txn w) !! feature_id) as [fp|] eqn:Hfp; simpl.
    + by erewrite process_feature_handler by by eapply body_conflict.
    + by erewrite process_feature_passes by by eapply body_fresh.
  - simpl. by erewrite process_feature_passes by by eapply body_unknown.
Qed.

Lemma create_feature_after w name lat lon :
  let w' := (create_feature name lat lon w).2 in
  match features (txn w) !! entropy w (drawn w) with
  | Some _ => store w' = store w ∧ txn w' = txn w
  | None =>
      store w'
      = created (entropy w (drawn w)) name lat lon (wall_clock w) (txn w)
      ∧ txn w' = store w'
  end.
Proof.
  destruct (features (txn w) !! entropy w (drawn w)) as [f|] eqn:Hf; simpl.
  - by destruct (create_feature_collision w name lat lon f Hf) as (_ & ? & ?).
  - by rewrite create_feature_fresh.
Qed.

(** One call keeps the session clean and the footprints well formed,
    and leaves every footprint row that exists as it is. *)
Lemma step_invariant w w' :
  step w w' →
  clean w → footprint_ok (store w) →
  clean w' ∧ footprint_ok (store w')
  ∧ ∀ k fp, footprints (store w) !! k = Some fp →
            footprints (store w') !! k = Some fp.
Proof.
  intros [c ->] Hc Hok. unfold clean in *.
  destruct c as [name lat lon|feature_id buffer_m|feature_id|lat lon radius_m|t];
    cbn [after_call].
  - pose proof (create_feature_after w name lat lon) as Hafter. simpl in Hafter.
    destruct (features (txn w) !! entropy w (drawn w)) as [f|] eqn:Hf.
    + destruct Hafter as [Hs Ht]. rewrite Hs, Ht. auto.
    + destruct Hafter as [Hs Ht]. rewrite Ht, Hs. split; [done|]. split.
      * apply footprint_ok_created; [done | by rewrite Hc].
      * simpl. by rewrite Hc.
  - pose proof (process_feature_after w feature_id buffer_m) as Hafter.
    simpl in Hafter.
    destruct (features (txn w) !! feature_id) as [f|] eqn:Hf.
    + destruct (footprints (txn w) !! feature_id) as [fp0|] eqn:Hfp.
      * destruct Hafter as [Hs Ht]. rewrite Hs, Ht. auto.
      * destruct Hafter as [Hs Ht]. rewrite Ht, Hs. split; [done|]. split.
        -- apply footprint_ok_processed; [done | by rewrite Hc].
        -- simpl. intros k fp Hk. rewrite Hc.
           rewrite lookup_insert_ne; [done|]. intros <-. congruence.
    + by rewrite Hafter.
  - by rewrite get_feature_eq.
  - by rewrite features_near_eq.
  - done.
Qed.

Lemma reachable_invariant w :
  reachable w → clean w ∧ footprint_ok (store w).
Proof.
  intros (w0 & (Hf & Hfp & Hc) & Hsteps).
  assert (clean w0 ∧ footprint_ok (store w0)) as Hinit.
  { split; [done|]. intros k fp. rewrite Hfp. by rewrite lookup_empty. }
  clear Hf Hfp Hc. induction Hsteps as [|w1 w2 w3 Hstep _ IH]; [done|].
  apply IH. destruct Hinit as [Hc Hok].
  by destruct (step_invariant _ _ Hstep Hc Hok) as (? & ? & _).
Qed.

(** C10: in every state that calls of the four functions reach from the
    migrated database, each footprint row stores the area of the polygon
    it stores, both being those of the buffer of its feature's point at
    the row's radius; and no call changes a footprint row that exists. *)
Theorem footprint_area_consistent w k fp :
  reachable w →
  footprints (store w) !! k = Some fp →
  fp_area_m2 fp = ST_Area (fp_geom fp)
  ∧ (∃ f, features (store w) !! k = Some f
          ∧ fp_geom fp = ST_Buffer (f_geom f) (fp_buffer_m fp)
          ∧ fp_area_m2 fp = ST_Area (ST_Buffer (f_geom f) (fp_buffer_m fp)))
  ∧ ∀ c, footprints (store (after_call c w)) !! k = Some fp.
Proof.
  intros [Hc Hok]%reachable_invariant Hfp.
  destruct (Hok k fp Hfp) as (f & Hf & Hgeom & Harea).
  split; [done|]. split.
  - exists f. by rewrite <- Hgeom.
  - intros c.
    destruct (step_invariant w (after_call c w)) as (_ & _ & Hkeep);
      [by exists c|done..|]. by apply Hkeep.
Qed.

End Invariant.

Section Compose.
Context {G : PostGIS} {D : Datetime}.
Implicit Types (w : World) (t : Tables) (f : Feature) (fp : Footprint).

(** A feature is processed at most once: after a call that returned
    [True], any further call on the same identifier, at whatever radius,
    returns [False] and leaves the tables alone, and [get_feature] keeps
    reporting the radius and the area of the first call. *)
Theorem process_feature_once w w1 feature_id r1 r2 :
  process_feature feature_id r1 w = (Return true, w1) →
  ∃ w2 f d,
    features (txn w) !! feature_id = Some f
    ∧ process_feature feature_id r2 w1 = (Return false, w2)
    ∧ store w2 = store w1
    ∧ txn w2 = txn w1
    ∧ get_feature feature_id w2 = (Return (Some d), w2)
    ∧ fd_status d = "done"
    ∧ fd_attempts d = f_attempts f + 1
    ∧ fd_buffer_m d = Some r1
    ∧ fd_buffer_area_m2 d = Some (ST_Area (ST_Buffer (f_geom f) r1)).
Proof.
  intros Hp.
  destruct (process_feature_body feature_id r1 w) as [[b|e] w0] eqn:Hb.
  2:{ rewrite (process_feature_handler _ _ _ e w0) in Hp; done. }
  rewrite (process_feature_passes _ _ _ b w0) in Hp by done.
  injection Hp as -> ->.
  destruct (body_returns_true _ _ _ _ Hb) as (f & Hf & Hfp).
  rewrite (body_fresh _ _ _ f) in Hb by done.
  injection Hb as <-.
  eexists _, f, _. split; [done|]. split.
  { apply process_feature_handler.
    eapply body_conflict; simpl; apply lookup_insert_eq. }
  simpl. do 2 (split; [done|]). split.
  { rewrite get_feature_eq. unfold select_feature. simpl.
    by rewrite !lookup_insert_eq. }
  done.
Qed.

(** [process_feature] on one feature changes nothing for another: with
    no write pending, both rows of any other identifier, and so what
    [get_feature] returns for it, are the same before and after, whether
    the call succeeds or fails. *)
Theorem process_feature_frame w feature_id buffer_m other :
  clean w →
  other ≠ feature_id →
  let w' := (process_feature feature_id buffer_m w).2 in
  features (txn w') !! other = features (txn w) !! other
  ∧ footprints (txn w') !! other = footprints (txn w) !! other
  ∧ features (store w') !! other = features (store w) !! other
  ∧ footprints (store w') !! other = footprints (store w) !! other
  ∧ (get_feature other w').1 = (get_feature other w).1.
Proof.
  intros Hc Hne w'. unfold clean in Hc.
  assert (txn w' = store w' ∧
          features (txn w') !! other = features (txn w) !! other
          ∧ footprints (txn w') !! other = footprints (txn w) !! other)
    as (Hc' & Hf & Hfp).
  { pose proof (process_feature_after w feature_id buffer_m) as Hafter.
    simpl in Hafter. fold w' in Hafter.
    destruct (features (txn w) !! feature_id) as [f|] eqn:Hfe.
    - destruct (footprints (txn w) !! feature_id) as [fp0|] eqn:Hfpe.
      + destruct Hafter as [Hs Ht]. by rewrite Ht, Hs, Hc.
      + destruct Hafter as [Hs Ht]. rewrite Ht, Hs. simpl.
        by rewrite !lookup_insert_ne.
    - by rewrite Hafter. }
  split; [done|]. split; [done|].
  rewrite <- Hc', <- Hc. split; [done|]. split; [done|].
  rewrite !get_feature_eq. simpl. unfold select_feature.
  by rewrite Hf, Hfp.
Qed.


(** When [uuid4] draws an identifier that a feature already has,
    [create_feature] raises the duplicate-key error of the INSERT instead
    of returning: nothing is committed, the existing row is not
    overwritten, nothing is printed, and the draw is used up. *)
Theorem create_feature_duplicate w name lat lon f :
  features (txn w) !! entropy w (drawn w) = Some f →
  ∃ w',
    create_feature name lat lon w = (Raise (IntegrityError "features_pkey"), w')
    ∧ store w' = store w
    ∧ txn w' = txn w
    ∧ stdout w' = stdout w
    ∧ drawn w' = S (drawn w).
Proof.
  intros Hf. eexists. split.
  - unfold create_feature. run. unfold insert_feature. simpl.
    rewrite Hf. reflexivity.
  - done.
Qed.


(** No call removes a committed feature or changes its name, its
    creation time or its point, and none lowers its attempts (with no
    write pending when the call is made). *)
Theorem feature_rows_persist w c k f :
  clean w →
  features (store w) !! k = Some f →
  ∃ f',
    features (store (after_call c w)) !! k = Some f'
    ∧ f_name f' = f_name f
    ∧ f_created_at f' = f_created_at f
    ∧ f_geom f' = f_geom f
    ∧ f_attempts f ≤ f_attempts f'.
Proof.
  intros Hc Hk. unfold clean in Hc.
  destruct c as [name lat lon|feature_id buffer_m|feature_id|lat lon radius_m|t];
    cbn [after_call].
  - pose proof (create_feature_after w name lat lon) as Hafter. simpl in Hafter.
    destruct (features (txn w) !! entropy w (drawn w)) as [f0|] eqn:Hf.
    + destruct Hafter as [Hs _]. rewrite Hs. exists f.
      split; [done|]. repeat split; lia.
    + destruct Hafter as [Hs _]. rewrite Hs. simpl. exists f.
      split; [|repeat split; lia].
      rewrite lookup_insert_ne; [by rewrite Hc|].
      intros Heq. rewrite Hc, Heq, Hk in Hf. done.
  - pose proof (process_feature_after w feature_id buffer_m) as Hafter.
    simpl in Hafter.
    destruct (features (txn w) !! feature_id) as [f0|] eqn:Hf.
    + destruct (footprints (txn w) !! feature_id) as [fp0|] eqn:Hfp.
      * destruct Hafter as [Hs _]. rewrite Hs. exists f.
        split; [done|]. repeat split; lia.
      * destruct Hafter as [Hs _]. rewrite Hs. simpl.
        destruct (decide (feature_id = k)) as [->|Hne].
        -- rewrite lookup_insert_eq. rewrite Hc, Hk in Hf.
           injection Hf as <-. eexists. split; [done|]. simpl.
           repeat split; lia.
        -- rewrite lookup_insert_ne by done. exists f.
           split; [by rewrite Hc|]. repeat split; lia.
    + rewrite Hafter. exists f. split; [done|]. repeat split; lia.
  - rewrite get_feature_eq. simpl. exists f. split; [done|]. repeat split; lia.
  - rewrite features_near_eq. simpl. exists f. split; [done|]. repeat split; lia.
  - simpl. exists f. split; [done|]. repeat split; lia.
Qed.

Lemma lifecycle_ok_created t feature_id name lat lon at_ :
  features t !! feature_id = None →
  fk_ok t →
  lifecycle_ok t → lifecycle_ok (created feature_id name lat lon at_ t).
Proof.
  intros Hnew Hfk Hok k f. simpl.
  destruct (decide (feature_id = k)) as [<-|Hne].
  - rewrite lookup_insert_eq. intros [= <-]. left. simpl.
    do 2 (split; [done|]).
    destruct (footprints t !! feature_id) eqn:E; [|done].
    destruct (Hfk feature_id) as [? Hs]; [by rewrite E|]. congruence.
  - rewrite lookup_insert_ne by done. apply Hok.
Qed.

Lemma lifecycle_ok_processed t feature_id f buffer_m at_ :
  features t !! feature_id = Some f →
  footprints t !! feature_id = None →
  lifecycle_ok t → lifecycle_ok (processed feature_id f buffer_m at_ t).
Proof.
  intros Hf Hfp Hok k f'. simpl.
  destruct (decide (feature_id = k)) as [<-|Hne].
  - rewrite !lookup_insert_eq. intros [= <-]. right. simpl.
    destruct (Hok _ _ Hf) as [(_ & Ha & _)|(_ & _ & [? Hs])]; [|congruence].
    split; [done|]. split; [lia|]. eauto.
  - rewrite !lookup_insert_ne by done. apply Hok.
Qed.

Lemma step_lifecycle w w' :
  step w w' →
  clean w → footprint_ok (store w) → lifecycle_ok (store w) →
  lifecycle_ok (store w').
Proof.
  intros [c ->] Hc Hok Hlife. unfold clean in Hc.
  destruct c as [name lat lon|feature_id buffer_m|feature_id|lat lon radius_m|t];
    cbn [after_call].
  - pose proof (create_feature_after w name lat lon) as Hafter. simpl in Hafter.
    destruct (features (txn w) !! entropy w (drawn w)) as [f|] eqn:Hf.
    + destruct Hafter as [Hs _]. by rewrite Hs.
    + destruct Hafter as [Hs _]. rewrite Hs.
      apply lifecycle_ok_created; rewrite ?Hc; auto using footprint_ok_fk.
      by rewrite <- Hc.
  - pose proof (process_feature_after w feature_id buffer_m) as Hafter.
    simpl in Hafter.
    destruct (features (txn w) !! feature_id) as [f|] eqn:Hf.
    + destruct (footprints (txn w) !! feature_id) as [fp0|] eqn:Hfp.
      * destruct Hafter as [Hs _]. by rewrite Hs.
      * destruct Hafter as [Hs _]. rewrite Hs.
        apply lifecycle_ok_processed; rewrite ?Hc; auto; by rewrite <- Hc.
    + by rewrite Hafter.
  - by rewrite get_feature_eq.
  - by rewrite features_near_eq.
  - done.
Qed.

(** In every state that calls of the four functions reach from the
    migrated database, no write is pending, every footprint belongs to a
    feature, and every feature is either ['queued'] with attempts 0 and
    no footprint or ['done'] with attempts 1 and a footprint: a failed
    call is not counted as an attempt. *)
Theorem reachable_lifecycle w :
  reachable w →
  clean w ∧ fk_ok (store w) ∧ lifecycle_ok (store w).
Proof.
  intros (w0 & (Hf & Hfp & Hc) & Hsteps).
  assert (clean w0 ∧ footprint_ok (store w0) ∧ lifecycle_ok (store w0))
    as Hinit.
  { split; [done|]. split.
    - intros k fp. rewrite Hfp. by rewrite lookup_empty.
    - intros k f. rewrite Hf. by rewrite lookup_empty. }
  clear Hf Hfp Hc.
  assert (clean w ∧ footprint_ok (store w) ∧ lifecycle_ok (store w))
    as (? & ? & ?); [|auto using footprint_ok_fk].
  induction Hsteps as [|w1 w2 w3 Hstep _ IH]; [done|].
  apply IH. destruct Hinit as (Hc & Hok & Hlife).
  destruct (step_invariant _ _ Hstep Hc Hok) as (? & ? & _).
  eauto using step_lifecycle.
Qed.

(** [process_feature] ends the caller's transaction whenever the
    feature exists.  If it returns [True], the session's other pending
    writes are committed along with its own; if it returns [False], they
    are rolled back with it and the committed tables stay as they were.
    Either way nothing is pending afterwards. *)
Theorem process_feature_settles w feature_id buffer_m f :
  features (txn w) !! feature_id = Some f →
  clean (process_feature feature_id buffer_m w).2
  ∧ ((process_feature feature_id buffer_m w).1 = Return true →
     ∀ k, k ≠ feature_id →
       features (store (process_feature feature_id buffer_m w).2) !! k
       = features (txn w) !! k
       ∧ footprints (store (process_feature feature_id buffer_m w).2) !! k
         = footprints (txn w) !! k)
  ∧ ((process_feature feature_id buffer_m w).1 = Return false →
     store (process_feature feature_id buffer_m w).2 = store w).
Proof.
  intros Hf. unfold clean.
  destruct (footprints (txn w) !! feature_id) as [fp|] eqn:Hfp.
  - rewrite (process_feature_handler _ _ _ _ w) by by eapply body_conflict.
    simpl. split; [done|]. split; [intros [=]|done].
  - erewrite process_feature_passes by by eapply body_fresh.
    simpl. split; [done|]. split; [|intros [=]].
    intros _ k Hne. by rewrite !lookup_insert_ne.
Qed.


End Compose.

Section Search.
Context {G : PostGIS} {D : Datetime}.
Implicit Types (w : World) (t : Tables) (f : Feature) (j : Joined).



End Search.

(** ** Theorems on the migration *)

Module Migration.
Import Alembic.

Lemma relation_exists_false name c :
  relation_exists name c = false
  ↔ tables c !! name = None ∧ indexes c !! name = None.
Proof.
  unfold relation_exists. rewrite bool_decide_eq_false.
  rewrite !eq_None_not_Some. tauto.
Qed.

Lemma relation_exists_true name c :
  relation_exists name c = true
  ↔ is_Some (tables c !! name) ∨ is_Some (indexes c !! name).
Proof. unfold relation_exists. by rewrite bool_decide_eq_true. Qed.

Lemma names_free_lookups c :
  names_free c ↔
  (tables c !! "features" = None ∧ indexes c !! "features" = None) ∧
  (tables c !! "features_pkey" = None ∧ indexes c !! "features_pkey" = None) ∧
  (tables c !! "idx_features_geom" = None ∧ indexes c !! "idx_features_geom" = None) ∧
  (tables c !! "footprints" = None ∧ indexes c !! "footprints" = None) ∧
  (tables c !! "footprints_pkey" = None ∧ indexes c !! "footprints_pkey" = None) ∧
  (tables c !! "idx_footprints_geom" = None ∧ indexes c !! "idx_footprints_geom" = None).
Proof.
  unfold names_free, upgrade_names. rewrite !Forall_cons, Forall_nil. tauto.
Qed.

Ltac lookups :=
  repeat first
    [ rewrite lookup_insert_eq
    | rewrite lookup_insert_ne by done ].


Lemma and_then_inr (f g : DDL) c c' : f c = inr c' → and_then f g c = g c'.
Proof. unfold and_then. by intros ->. Qed.

Lemma and_then_inl (f g : DDL) c e : f c = inl e → and_then f g c = inl e.
Proof. unfold and_then. by intros ->. Qed.

Lemma create_table_ok name cols c :
  relation_exists name c = false →
  relation_exists (name +:+ "_pkey") c = false →
  forallb (λ col, type_exists (c_type col) c) cols = true →
  Forall (λ target, is_Some (tables c !! target) ∨ target = name)
         (foreign_tables cols) →
  create_table name cols c
  = inr {| extensions := extensions c;
           tables := <[name := cols]> (tables c);
           indexes :=
             match c_name <$> List.filter c_primary_key cols with
             | [] => indexes c
             | pk => <[name +:+ "_pkey" :=
                         {| i_table := name; i_using := "btree";
                            i_columns := pk |}]> (indexes c)
             end |}.
Proof.
  intros H1 H2 H3 H4. unfold create_table. rewrite H1, H2, H3. simpl.
  destruct (find _ _) as [target|] eqn:Hfind; [|done].
  apply find_some in Hfind as [Hin Hmiss].
  rewrite Forall_forall in H4. apply list_elem_of_In, H4 in Hin.
  apply andb_true_iff in Hmiss as [Hm1 Hm2].
  apply negb_true_iff in Hm1, Hm2.
  apply bool_decide_eq_false in Hm1. apply String.eqb_neq in Hm2.
  tauto.
Qed.

Lemma add_column_ok table col cols c :
  tables c !! table = Some cols →
  has_column (c_name col) cols = false →
  type_exists (c_type col) c = true →
  add_column table col c
  = inr {| extensions := extensions c;
           tables := <[table := (cols ++ [col])%list]> (tables c);
           indexes := indexes c |}.
Proof. intros H1 H2 H3. unfold add_column. by rewrite H1, H2, H3. Qed.

Lemma drop_default_ok table column cols c :
  tables c !! table = Some cols →
  has_column column cols = true →
  drop_default table column c
  = inr {| extensions := extensions c;
           tables :=
             <[table := (λ col, if String.eqb (c_name col) column
                                then without_default col else col) <$> cols]>
               (tables c);
           indexes := indexes c |}.
Proof. intros H1 H2. unfold drop_default. by rewrite H1, H2. Qed.

Lemma create_index_ok name table method column cols c :
  relation_exists name c = false →
  tables c !! table = Some cols →
  has_column column cols = true →
  create_index name table method column c
  = inr {| extensions := extensions c;
           tables := tables c;
           indexes := <[name := {| i_table := table; i_using := method;
                                   i_columns := [column] |}]> (indexes c) |}.
Proof. intros H1 H2 H3. unfold create_index. by rewrite H1, H2, H3. Qed.

Ltac tidy :=
  cbn [extensions tables indexes String.append fmap list_fmap List.filter
       c_primary_key c_name c_type features_columns footprints_columns plain
       geom_column app type_exists].

Ltac tidy_in H :=
  cbn [extensions tables indexes String.append fmap list_fmap List.filter
       c_primary_key c_name c_type features_columns footprints_columns plain
       geom_column app type_exists] in H.

Ltac side :=
  tidy;
  first
    [ apply relation_exists_false; tidy; lookups; done
    | lookups; reflexivity
    | reflexivity
    | apply bool_decide_eq_true_2; set_solver ].

Lemma upgrade_run c :
  names_free c → upgrade c = inr (upgraded c).
Proof.
  rewrite names_free_lookups.
  intros ([T1 I1] & [T2 I2] & [T3 I3] & [T4 I4] & [T5 I5] & [T6 I6]).
  unfold upgrade.
  erewrite and_then_inr by reflexivity.
  erewrite and_then_inr.
  2:{ apply create_table_ok. 1-3: side. simpl. constructor. }
  tidy.
  erewrite and_then_inr.
  2:{ eapply add_column_ok. all: side. }
  tidy.
  erewrite and_then_inr.
  2:{ eapply drop_default_ok. all: side. }
  tidy.
  erewrite and_then_inr.
  2:{ eapply create_index_ok. all: side. }
  tidy.
  erewrite and_then_inr.
  2:{ apply create_table_ok. 1-3: side.
      apply Forall_cons. split; [|by apply Forall_nil].
      left. tidy. lookups. eauto. }
  tidy.
  erewrite and_then_inr.
  2:{ eapply add_column_ok. all: side. }
  tidy.
  erewrite and_then_inr.
  2:{ eapply drop_default_ok. all: side. }
  tidy.
  erewrite create_index_ok. 
  2-4: side.
  tidy. rewrite !insert_insert_eq. reflexivity.
Qed.


Lemma and_then_inv (f g : DDL) c c2 :
  and_then f g c = inr c2 → ∃ c1, f c = inr c1 ∧ g c1 = inr c2.
Proof. unfold and_then. destruct (f c) as [e|c1]; [done|eauto]. Qed.

Lemma create_table_inv name cols c c' :
  create_table name cols c = inr c' →
  relation_exists name c = false
  ∧ relation_exists (name +:+ "_pkey") c = false
  ∧ tables c' = <[name := cols]> (tables c)
  ∧ extensions c' = extensions c
  ∧ indexes c'
    = match c_name <$> List.filter c_primary_key cols with
      | [] => indexes c
      | pk => <[name +:+ "_pkey" :=
                  {| i_table := name; i_using := "btree";
                     i_columns := pk |}]> (indexes c)
      end.
Proof.
  unfold create_table.
  destruct (relation_exists name c); [done|].
  destruct (relation_exists (name +:+ "_pkey") c); [done|].
  destruct (negb _); [done|]. destruct (find _ _); [done|].
  by intros [= <-].
Qed.

Lemma add_column_inv table col c c' :
  add_column table col c = inr c' →
  ∃ cols, tables c !! table = Some cols
    ∧ tables c' = <[table := (cols ++ [col])%list]> (tables c)
    ∧ extensions c' = extensions c ∧ indexes c' = indexes c.
Proof.
  unfold add_column. destruct (tables c !! table) as [cols|]; [|done].
  destruct (has_column _ _); [done|]. destruct (type_exists _ _); [|done].
  injection 1 as <-. eauto.
Qed.

Lemma drop_default_inv table column c c' :
  drop_default table column c = inr c' →
  is_Some (tables c !! table)
  ∧ dom (tables c') = dom (tables c)
  ∧ extensions c' = extensions c ∧ indexes c' = indexes c.
Proof.
  unfold drop_default. destruct (tables c !! table) as [cols|] eqn:E; [|done].
  destruct (has_column _ _); [|done].
  injection 1 as <-. simpl. split; [eauto|]. split; [|done].
  apply dom_insert_lookup_L. eauto.
Qed.

Lemma create_index_inv name table method column c c' :
  create_index name table method column c = inr c' →
  relation_exists name c = false
  ∧ tables c' = tables c
  ∧ extensions c' = extensions c
  ∧ indexes c' = <[name := {| i_table := table; i_using := method;
                              i_columns := [column] |}]> (indexes c).
Proof.
  unfold create_index. destruct (relation_exists name c); [done|].
  destruct (tables c !! table) as [cols|]; [|done].
  destruct (has_column _ _); [|done].
  by intros [= <-].
Qed.

Lemma upgrade_inv c c1 : upgrade c = inr c1 → names_free c.
Proof.
  intros Hup. apply names_free_lookups.
  unfold upgrade in Hup.
  apply and_then_inv in Hup as (s0 & [= <-] & Hup).
  apply and_then_inv in Hup as (s1 & H1 & Hup).
  apply and_then_inv in Hup as (s2 & H2 & Hup).
  apply and_then_inv in Hup as (s3 & H3 & Hup).
  apply and_then_inv in Hup as (s4 & H4 & Hup).
  apply and_then_inv in Hup as (s5 & H5 & Hup).
  apply and_then_inv in Hup as (s6 & H6 & Hup).
  apply and_then_inv in Hup as (s7 & H7 & H8).
  apply create_table_inv in H1 as (F1 & F2 & T1 & _ & I1).
  apply add_column_inv in H2 as (? & _ & T2 & _ & I2).
  apply drop_default_inv in H3 as (_ & T3 & _ & I3).
  apply create_index_inv in H4 as (F3 & T4 & _ & I4).
  apply create_table_inv in H5 as (F4 & F5 & T5 & _ & I5).
  apply add_column_inv in H6 as (? & _ & T6 & _ & I6).
  apply drop_default_inv in H7 as (_ & T7 & _ & I7).
  apply create_index_inv in H8 as (F6 & _).
  apply relation_exists_false in F1, F2, F3, F4, F5, F6.
  simpl in *.
  apply (f_equal dom) in T1, T2, T4, T5, T6.
  apply (f_equal dom) in I1, I2, I3, I4, I5, I6, I7.
  rewrite dom_insert_L in T1, T2, T5, T6.
  rewrite dom_insert_L in I1, I4, I5.
  rewrite <- !not_elem_of_dom in *.
  rewrite T7, T6, T5, T4, T3, T2, T1 in F6.
  rewrite I7, I6, I5, I4, I3, I2, I1 in F6.
  rewrite T4, T3, T2, T1, I4, I3, I2, I1 in F5, F4.
  rewrite T3, T2, T1, I3, I2, I1 in F3.
  clear T1 T2 T3 T4 T5 T6 T7 I1 I2 I3 I4 I5 I6 I7.
  change ("features" +:+ "_pkey") with "features_pkey" in *.
  change ("footprints" +:+ "_pkey") with "footprints_pkey" in *.
  repeat rewrite not_elem_of_union in F3.
  repeat rewrite not_elem_of_union in F4.
  repeat rewrite not_elem_of_union in F5.
  repeat rewrite not_elem_of_union in F6.
  tauto.
Qed.

Lemma upgrade_inr c c1 : upgrade c = inr c1 → names_free c ∧ c1 = upgraded c.
Proof.
  intros Hup. pose proof (upgrade_inv _ _ Hup) as Hfree.
  split; [done|]. rewrite (upgrade_run _ Hfree) in Hup. by injection Hup.
Qed.






(** The order of [downgrade] matters: right after [upgrade], dropping
    [features] first is refused, because [footprints] refers to it. *)
Theorem features_first_fails c c1 :
  upgrade c = inr c1 →
  drop_table "features" c1 = inl (DependentObjectsStillExist "features").
Proof.
  intros [_ ->]%upgrade_inr. unfold drop_table, upgraded. cbn [tables].
  lookups. rewrite decide_False; [done|].
  intros Hun. specialize (Hun "footprints" Footprint_columns).
  cbn [tables] in Hun. rewrite lookup_insert_eq in Hun.
  by destruct (Hun eq_refl).
Qed.

Lemma drop_table_inv name c c' :
  drop_table name c = inr c' →
  is_Some (tables c !! name)
  ∧ unreferenced name c
  ∧ c' = {| extensions := extensions c;
            tables := delete name (tables c);
            indexes := filter (λ ni, i_table ni.2 ≠ name) (indexes c) |}.
Proof.
  unfold drop_table. destruct (tables c !! name); [|done].
  destruct (decide _); [|done]. injection 1 as <-. eauto.
Qed.

(** When [downgrade] goes through, both tables existed and are gone with
    their indexes; the extensions (postgis among them), every other
    table and every index of another table are as before. *)
Theorem downgrade_effect c c' :
  downgrade c = inr c' →
  is_Some (tables c !! "footprints")
  ∧ is_Some (tables c !! "features")
  ∧ extensions c' = extensions c
  ∧ tables c' !! "features" = None
  ∧ tables c' !! "footprints" = None
  ∧ (∀ other, other ≠ "features" → other ≠ "footprints" →
       tables c' !! other = tables c !! other)
  ∧ (∀ name ix,
       indexes c' !! name = Some ix
       ↔ indexes c !! name = Some ix
         ∧ i_table ix ≠ "features" ∧ i_table ix ≠ "footprints").
Proof.
  intros (c1 & H1 & H2)%and_then_inv.
  apply drop_table_inv in H1 as (Hfp & Hun1 & ->).
  apply drop_table_inv in H2 as (Hf & Hun2 & ->).
  cbn [tables indexes extensions] in *.
  split; [done|]. split.
  { rewrite lookup_delete_ne in Hf by done. done. }
  split; [done|]. split; [apply lookup_delete_eq|]. split.
  { rewrite lookup_delete_ne by done. apply lookup_delete_eq. }
  split.
  - intros other ? ?. by rewrite !lookup_delete_ne.
  - intros name ix. rewrite !map_lookup_filter_Some. simpl. tauto.
Qed.

End Migration.

(** ** The functions at work on the small instance *)

#[local] Existing Instance Flat.postgis.
#[local] Existing Instance Flat.iso.

Lemma flat_postgis_laws : PostGISLaws Flat.postgis.
Proof.
  split; simpl.
  - intros x y. unfold float8_le; simpl. lia.
  - intros x y z. unfold float8_le; simpl. lia.
  - intros [x y]. unfold Flat.distance; simpl. lia.
  - intros [x y]. apply bool_decide_eq_true. unfold Flat.distance; simpl. lia.
  - intros p q r1 r2 Hr. rewrite !bool_decide_eq_true. lia.
  - intros p r Hr. unfold float8_lt, Flat.area; simpl.
    destruct (decide (0 < r)); [nia|done].
Qed.


Lemma flat_migrated : migrated Flat.genesis.
Proof. done. Qed.

Lemma flat_one_done_reachable : reachable Flat.one_done.
Proof.
  exists Flat.genesis. split; [apply flat_migrated|].
  apply (rtc_l _ _ Flat.one_feature); [by exists (@CreateFeature Flat.postgis Flat.iso "Pier A" 4 3)|].
  apply rtc_once. by exists (@ProcessFeature Flat.postgis Flat.iso 1 500).
Qed.




Lemma process_feature_unknown_witness :
  features (txn Flat.one_feature) !! 2%N = None
  ∧ process_feature 2 500 Flat.one_feature = (Return false, Flat.one_feature).
Proof.
  assert (features (txn Flat.one_feature) !! 2%N = None)
    as Hnone by (vm_compute; reflexivity).
  split; [exact Hnone|].
  exact (process_feature_unknown Flat.one_feature 2 500 Hnone).
Defined.

Lemma process_feature_again_witness :
  features (txn Flat.one_done) !! 1%N = Some Flat.pier_a_done
  ∧ footprints (txn Flat.one_done) !! 1%N = Some Flat.pier_a_footprint
  ∧ statement (insert_footprint 1 500 (wall_clock Flat.one_done)) Flat.one_done
    = (Raise (IntegrityError "footprints_pkey"), Flat.one_done)
  ∧ ∃ w',
      process_feature 1 500 Flat.one_done = (Return false, w')
      ∧ store w' = store Flat.one_done
      ∧ txn w' = store Flat.one_done
      ∧ (clean Flat.one_done →
         features (txn w') !! 1%N = Some Flat.pier_a_done
         ∧ footprints (txn w') !! 1%N = Some Flat.pier_a_footprint).
Proof.
  assert (features (txn Flat.one_done) !! 1%N = Some Flat.pier_a_done)
    as Hf by (vm_compute; reflexivity).
  assert (footprints (txn Flat.one_done) !! 1%N = Some Flat.pier_a_footprint)
    as Hfp by (vm_compute; reflexivity).
  split; [exact Hf|]. split; [exact Hfp|].
  exact (process_feature_again Flat.one_done 1 500 _ _ Hf Hfp).
Defined.



Lemma features_near_monotone_witness :
  1 ≤ 2
  ∧ (features_near 4 3 1 Flat.two_features).1 = Return [Flat.pier_a_here]
  ∧ (features_near 4 3 2 Flat.two_features).1
    = Return [Flat.pier_a_here; Flat.pier_b_east]
  ∧ Flat.pier_a_here ∈ [Flat.pier_a_here]
  ∧ Flat.pier_a_here ∈ [Flat.pier_a_here; Flat.pier_b_east].
Proof.
  assert (1 ≤ 2) as Hle by lia.
  assert ((features_near 4 3 1 Flat.two_features).1 = Return [Flat.pier_a_here])
    as H1 by (vm_compute; reflexivity).
  assert ((features_near 4 3 2 Flat.two_features).1
          = Return [Flat.pier_a_here; Flat.pier_b_east])
    as H2 by (vm_compute; reflexivity).
  assert (Flat.pier_a_here ∈ [Flat.pier_a_here]) as Hin by apply list_elem_of_here.
  do 4 (split; [assumption|]).
  exact (features_near_monotone (PostGISLaws0 := flat_postgis_laws)
           Flat.two_features 4 3 1 2 _ _ Hle H1 H2 _ Hin).
Defined.

Lemma footprint_area_consistent_witness :
  reachable Flat.one_done
  ∧ footprints (store Flat.one_done) !! 1%N = Some Flat.pier_a_footprint
  ∧ fp_area_m2 Flat.pier_a_footprint = ST_Area (fp_geom Flat.pier_a_footprint)
  ∧ (∃ f, features (store Flat.one_done) !! 1%N = Some f
          ∧ fp_geom Flat.pier_a_footprint
            = ST_Buffer (f_geom f) (fp_buffer_m Flat.pier_a_footprint)
          ∧ fp_area_m2 Flat.pier_a_footprint
            = ST_Area (ST_Buffer (f_geom f) (fp_buffer_m Flat.pier_a_footprint)))
  ∧ ∀ c, footprints (store (after_call c Flat.one_done)) !! 1%N
         = Some Flat.pier_a_footprint.
Proof.
  assert (footprints (store Flat.one_done) !! 1%N = Some Flat.pier_a_footprint)
    as Hfp by (vm_compute; reflexivity).
  split; [exact flat_one_done_reachable|]. split; [exact Hfp|].
  exact (footprint_area_consistent Flat.one_done 1 Flat.pier_a_footprint
           flat_one_done_reachable Hfp).
Defined.

(** C5 at a failing input: seen from (3, 4) with radius 10, "Pier A",
    which stands there, comes first but with [distance_m] [None], though
    its ST_Distance is zero; "Pier B" follows with its distance 2. *)
Theorem features_near_at_a_feature :
  (features_near 4 3 10 Flat.two_features).1
  = Return [Flat.pier_a_here; Flat.pier_b_east]
  ∧ (f_geom <$> features (txn Flat.two_features) !! 1%N)
    = Some (ST_MakePoint (PostGIS := Flat.postgis) 3 4)
  ∧ ST_Distance (PostGIS := Flat.postgis) (ST_MakePoint 3 4) (ST_MakePoint 3 4)
    = float8_zero
  ∧ nd_distance_m Flat.pier_a_here ≠ Some float8_zero.
Proof. split; [by vm_compute|]. split; [by vm_compute|]. done. Qed.

(** C6 at a failing input: with radius 0 at the very point of "Pier A",
    [features_near] returns the feature, with [distance_m] [None] and
    not zero. *)
Theorem features_near_radius_zero :
  (features_near 4 3 0 Flat.one_feature).1 = Return [Flat.pier_a_here]
  ∧ (f_geom <$> features (txn Flat.one_feature) !! 1%N)
    = Some (ST_MakePoint (PostGIS := Flat.postgis) 3 4)
  ∧ nd_distance_m Flat.pier_a_here = None
  ∧ nd_distance_m Flat.pier_a_here ≠ Some float8_zero.
Proof. split; [by vm_compute|]. split; [by vm_compute|]. done. Qed.

(** *** More of the functions at work *)

Lemma process_feature_once_witness :
  process_feature 1 500 Flat.one_feature = (Return true, Flat.one_done)
  ∧ ∃ w2 f d,
      features (txn Flat.one_feature) !! 1%N = Some f
      ∧ process_feature 1 100 Flat.one_done = (Return false, w2)
      ∧ store w2 = store Flat.one_done
      ∧ txn w2 = txn Flat.one_done
      ∧ get_feature 1 w2 = (Return (Some d), w2)
      ∧ fd_status d = "done"
      ∧ fd_attempts d = f_attempts f + 1
      ∧ fd_buffer_m d = Some 500
      ∧ fd_buffer_area_m2 d = Some (ST_Area (ST_Buffer (f_geom f) 500)).
Proof.
  assert (process_feature 1 500 Flat.one_feature = (Return true, Flat.one_done))
    as Hrun by (vm_compute; reflexivity).
  split; [exact Hrun|].
  exact (process_feature_once Flat.one_feature Flat.one_done 1 500 100 Hrun).
Defined.

Lemma process_feature_frame_witness :
  clean Flat.two_features
  ∧ 2%N ≠ 1%N
  ∧ features (txn (process_feature 1 500 Flat.two_features).2) !! 2%N
    = features (txn Flat.two_features) !! 2%N
  ∧ (get_feature 2 (process_feature 1 500 Flat.two_features).2).1
    = (get_feature 2 Flat.two_features).1.
Proof.
  assert (clean Flat.two_features) as Hc by (vm_compute; reflexivity).
  assert (2%N ≠ 1%N) as Hne by discriminate.
  split; [exact Hc|]. split; [exact Hne|].
  destruct (process_feature_frame Flat.two_features 1 500 2 Hc Hne)
    as (Hf & _ & _ & _ & Hget).
  split; [exact Hf | exact Hget].
Defined.


Lemma create_feature_duplicate_witness :
  features (txn Flat.repeating) !! entropy Flat.repeating (drawn Flat.repeating)
  = Some (Flat.pier_a_queued_row)
  ∧ ∃ w',
      create_feature "Pier C" 0 0 Flat.repeating
      = (Raise (IntegrityError "features_pkey"), w')
      ∧ store w' = store Flat.repeating
      ∧ txn w' = txn Flat.repeating
      ∧ stdout w' = stdout Flat.repeating
      ∧ drawn w' = S (drawn Flat.repeating).
Proof.
  assert (features (txn Flat.repeating)
            !! entropy Flat.repeating (drawn Flat.repeating)
          = Some (Flat.pier_a_queued_row)) as Hf by (vm_compute; reflexivity).
  split; [exact Hf|].
  exact (create_feature_duplicate Flat.repeating "Pier C" 0 0 _ Hf).
Defined.


Lemma feature_rows_persist_witness :
  clean Flat.one_feature
  ∧ features (store Flat.one_feature) !! 1%N = Some Flat.pier_a_queued_row
  ∧ ∃ f',
      features (store (after_call (ProcessFeature 1 500) Flat.one_feature)) !! 1%N
      = Some f'
      ∧ f_name f' = "Pier A"
      ∧ f_created_at f' = Flat.noon
      ∧ f_geom f' = f_geom Flat.pier_a_queued_row
      ∧ 0 ≤ f_attempts f'.
Proof.
  assert (clean Flat.one_feature) as Hc by (vm_compute; reflexivity).
  assert (features (store Flat.one_feature) !! 1%N = Some Flat.pier_a_queued_row)
    as Hf by (vm_compute; reflexivity).
  split; [exact Hc|]. split; [exact Hf|].
  exact (feature_rows_persist Flat.one_feature (ProcessFeature 1 500) 1
           Flat.pier_a_queued_row Hc Hf).
Defined.

Lemma reachable_lifecycle_witness :
  reachable Flat.one_done
  ∧ clean Flat.one_done
  ∧ fk_ok (store Flat.one_done)
  ∧ lifecycle_ok (store Flat.one_done).
Proof.
  split; [exact flat_one_done_reachable|].
  exact (reachable_lifecycle Flat.one_done flat_one_done_reachable).
Defined.





(** *** The migration at work *)




Lemma features_first_fails_witness :
  Alembic.upgrade Alembic.with_users
  = inr (Alembic.upgraded Alembic.with_users)
  ∧ Alembic.drop_table "features" (Alembic.upgraded Alembic.with_users)
    = inl (Alembic.DependentObjectsStillExist "features").
Proof.
  assert (Alembic.upgrade Alembic.with_users
          = inr (Alembic.upgraded Alembic.with_users))
    as Hup by (vm_compute; reflexivity).
  split; [exact Hup|].
  exact (Migration.features_first_fails _ _ Hup).
Defined.

Lemma downgrade_effect_witness :
  Alembic.downgrade (Alembic.upgraded Alembic.with_users)
  = inr {| Alembic.extensions := {["postgis"; "plpgsql"]};
           Alembic.tables := Alembic.tables Alembic.with_users;
           Alembic.indexes := Alembic.indexes Alembic.with_users |}
  ∧ Alembic.extensions
      {| Alembic.extensions := {["postgis"; "plpgsql"]};
         Alembic.tables := Alembic.tables Alembic.with_users;
         Alembic.indexes := Alembic.indexes Alembic.with_users |}
    = Alembic.extensions (Alembic.upgraded Alembic.with_users).
Proof.
  assert (Alembic.downgrade (Alembic.upgraded Alembic.with_users)
          = inr {| Alembic.extensions := {["postgis"; "plpgsql"]};
                   Alembic.tables := Alembic.tables Alembic.with_users;
                   Alembic.indexes := Alembic.indexes Alembic.with_users |})
    as Hdown by (vm_compute; reflexivity).
  split; [exact Hdown|].
  destruct (Migration.downgrade_effect _ _ Hdown) as (_ & _ & Hext & _).
  exact Hext.
Defined.

Lemma process_feature_settles_witness :
  features (txn Flat.pending) !! 1%N = Some Flat.pier_a_done
  ∧ is_Some (features (txn Flat.pending) !! 9%N)
  ∧ clean (process_feature 1 500 Flat.pending).2
  ∧ store (process_feature 1 500 Flat.pending).2 = store Flat.pending
  ∧ features (txn (process_feature 1 500 Flat.pending).2) !! 9%N = None.
Proof.
  assert (features (txn Flat.pending) !! 1%N = Some Flat.pier_a_done)
    as Hf by (vm_compute; reflexivity).
  assert ((process_feature 1 500 Flat.pending).1 = Return false)
    as Hrun by (vm_compute; reflexivity).
  split; [exact Hf|]. split; [vm_compute; eauto|].
  destruct (process_feature_settles Flat.pending 1 500 _ Hf)
    as (Hc & _ & Hstore).
  split; [exact Hc|]. split; [exact (Hstore Hrun)|].
  rewrite Hc, (Hstore Hrun). vm_compute. reflexivity.
Defined.
